(** * react-cart: the cart manager of [src/hooks/useCart.tsx]

    A shallow embedding of [CartProvider]: the cart held in React state,
    the three operations [addProduct], [removeProduct] and
    [updateProductAmount], the two collaborators they talk to (the
    product/stock HTTP API and [localStorage]) and the toast sink.

    JavaScript numbers are modelled as unbounded integers [Z]: the cart
    code only compares identifiers and quantities, adds to them and copies
    them. Strings are sequences of 8-bit code units. *)

From Stdlib Require Import ZArith Ascii String Decimal DecimalZ.
From stdpp Require Import base list strings gmap.

Local Open Scope Z_scope.

(** ** Data model *)

(** Modelled from the spec: the [Product] type of [src/types], which is not
    among the sources: an identifier, the display attributes (name, price,
    image) and the quantity held in the cart. *)
Module Product.

Record t := mk {
  id : Z;
  title : string;
  price : Z;
  image : string;
  amount : Z
}.

(** [{ ...item, amount: a }] *)
Definition with_amount (item : t) (a : Z) : t :=
  mk (id item) (title item) (price item) (image item) a.

End Product.

(** Modelled from the spec: the [Stock] type of [src/types], which is not
    among the sources: an identifier and the available quantity. *)
Module Stock.

Record t := mk {
  id : Z;
  amount : Z
}.

End Stock.

(** The body of a [products/{id}] response: the product attributes, before
    the cart gives the entry a quantity. *)
Module ProductData.

Record t := mk {
  id : Z;
  title : string;
  price : Z;
  image : string
}.

(** [{ ...data, amount: a }] *)
Definition with_amount (data : t) (a : Z) : Product.t :=
  Product.mk (id data) (title data) (price data) (image data) a.

End ProductData.

Abbreviation Cart := (list Product.t).

(** ** JSON values and [JSON.stringify] *)

#[local] Set Warnings "-register-all".

Inductive json :=
  | JNull
  | JBool (b : bool)
  | JNum (n : Z)
  | JStr (s : string)
  | JArr (elements : list json)
  | JObj (members : list (string * json)).

Inductive token :=
  | TLBracket | TRBracket | TLBrace | TRBrace | TColon | TComma
  | TNull | TTrue | TFalse
  | TNum (n : Z)
  | TStr (s : string).

Definition char (n : nat) : ascii := ascii_of_nat n.
Definition code (c : ascii) : nat := nat_of_ascii c.

Definition quote_char : ascii := char 34.
Definition backslash_char : ascii := char 92.

Definition hex_digit (n : nat) : ascii :=
  if (n <? 10)%nat then char (48 + n) else char (87 + n).

(** The text [JSON.stringify] writes for one code unit inside a string. *)
Definition escape_char (c : ascii) : string :=
  if Ascii.eqb c quote_char then String backslash_char (String quote_char "")
  else if Ascii.eqb c backslash_char then String backslash_char (String backslash_char "")
  else if Ascii.eqb c (char 8) then String backslash_char "b"
  else if Ascii.eqb c (char 9) then String backslash_char "t"
  else if Ascii.eqb c (char 10) then String backslash_char "n"
  else if Ascii.eqb c (char 12) then String backslash_char "f"
  else if Ascii.eqb c (char 13) then String backslash_char "r"
  else if (code c <? 32)%nat then
    String backslash_char
      (String "u" (String "0" (String "0"
         (String (hex_digit (code c / 16)) (String (hex_digit (code c mod 16)) "")))))
  else String c "".

Fixpoint escape (s : string) : string :=
  match s with
  | EmptyString => ""
  | String c s' => escape_char c +:+ escape s'
  end.

Definition quote (s : string) : string :=
  String quote_char (escape s +:+ String quote_char "").

Fixpoint digits_of_uint (d : Decimal.uint) : string :=
  match d with
  | Nil => ""
  | D0 d => String "0" (digits_of_uint d)
  | D1 d => String "1" (digits_of_uint d)
  | D2 d => String "2" (digits_of_uint d)
  | D3 d => String "3" (digits_of_uint d)
  | D4 d => String "4" (digits_of_uint d)
  | D5 d => String "5" (digits_of_uint d)
  | D6 d => String "6" (digits_of_uint d)
  | D7 d => String "7" (digits_of_uint d)
  | D8 d => String "8" (digits_of_uint d)
  | D9 d => String "9" (digits_of_uint d)
  end.

Definition string_of_Z (n : Z) : string :=
  match Z.to_int n with
  | Decimal.Pos d => digits_of_uint d
  | Decimal.Neg d => String "-" (digits_of_uint d)
  end.

Definition token_text (t : token) : string :=
  match t with
  | TLBracket => "[" | TRBracket => "]"
  | TLBrace => "{" | TRBrace => "}"
  | TColon => ":" | TComma => ","
  | TNull => "null" | TTrue => "true" | TFalse => "false"
  | TNum n => string_of_Z n
  | TStr s => quote s
  end.

Fixpoint render (ts : list token) : string :=
  match ts with
  | [] => ""
  | t :: ts' => token_text t +:+ render ts'
  end.

(** Separate the token runs of the items with commas. *)
Fixpoint commas (items : list (list token)) : list token :=
  match items with
  | [] => []
  | [x] => x
  | x :: rest => x ++ TComma :: commas rest
  end.

Fixpoint tokens_of (v : json) : list token :=
  match v with
  | JNull => [TNull]
  | JBool true => [TTrue]
  | JBool false => [TFalse]
  | JNum n => [TNum n]
  | JStr s => [TStr s]
  | JArr elements => TLBracket :: commas (map tokens_of elements) ++ [TRBracket]
  | JObj members =>
      TLBrace
        :: commas (map (fun m => TStr (fst m) :: TColon :: tokens_of (snd m)) members)
        ++ [TRBrace]
  end.

(** [JSON.stringify(v)]: the tokens of the value, written without white
    space. *)
Definition JSON_stringify (v : json) : string := render (tokens_of v).

Definition json_of_product (p : Product.t) : json :=
  JObj [ ("id"%string, JNum (Product.id p));
         ("title"%string, JStr (Product.title p));
         ("price"%string, JNum (Product.price p));
         ("image"%string, JStr (Product.image p));
         ("amount"%string, JNum (Product.amount p)) ].

Definition json_of_cart (cart : Cart) : json := JArr (map json_of_product cart).

(** ** [JSON.parse]

    A lexer from text to tokens (white space is skipped between tokens) and
    a recursive-descent parser from tokens to values. [None] stands for the
    [SyntaxError] that [JSON.parse] throws. Number tokens are integers: a
    fraction or an exponent is outside this model and is not accepted. An
    object is its member list in text order. *)

















(** ** The world of one cart operation *)

(** What the browser holds: the cart in React state, the key-value store
    and the toasts shown so far (oldest first). *)
Record World := mkWorld {
  cart_state : Cart;
  localStorage : gmap string string;
  toasts : list string
}.

Inductive exn :=
  | RequestError
  | QuotaExceededError
  | SyntaxError.

(** How the collaborators answer: [None] is a request that rejects, and a
    store that does not accept a value throws on [setItem]. *)
Record Env := mkEnv {
  api_products : Z -> option ProductData.t;
  api_stock : Z -> option Stock.t;
  storage_accepts : string -> string -> bool
}.

(** A computation changes the world and returns or throws; what it did to
    the world before throwing stays done. *)
Definition M (A : Type) : Type := World -> (A + exn) * World.

Definition ret {A} (a : A) : M A := fun w => (inl a, w).

Definition bind {A B} (m : M A) (k : A -> M B) : M B :=
  fun w =>
    match m w with
    | (inl a, w') => k a w'
    | (inr e, w') => (inr e, w')
    end.

Definition throw {A} (e : exn) : M A := fun w => (inr e, w).

(** [try { body } catch { handler }] *)
Definition try_catch {A} (body handler : M A) : M A :=
  fun w =>
    match body w with
    | (inl a, w') => (inl a, w')
    | (inr _, w') => handler w'
    end.

Declare Scope cart_scope.
Delimit Scope cart_scope with cart.
Notation "x <- m ;; k" := (bind m (fun x => k))
  (at level 100, m at next level, right associativity) : cart_scope.
Notation "m ;; k" := (bind m (fun _ => k))
  (at level 100, right associativity) : cart_scope.
Local Open Scope cart_scope.

Definition storage_key : string := "@RocketShoes:cart".

Definition msg_add : string := "Erro na adição do produto".
Definition msg_remove : string := "Erro na remoção do produto".
Definition msg_update : string := "Erro na alteração de quantidade do produto".
Definition msg_out_of_stock : string := "Quantidade solicitada fora de estoque".

(** [toast.error(message)] *)
Definition showToastError (message : string) : M unit :=
  fun w => (inl tt, mkWorld (cart_state w) (localStorage w) (toasts w ++ [message])).

Definition setCart (updatedCart : Cart) : M unit :=
  fun w => (inl tt, mkWorld updatedCart (localStorage w) (toasts w)).

Definition localStorage_setItem (env : Env) (key value : string) : M unit :=
  fun w =>
    if storage_accepts env key value
    then (inl tt, mkWorld (cart_state w) (<[key := value]> (localStorage w)) (toasts w))
    else (inr QuotaExceededError, w).

Definition api_get_products (env : Env) (productId : Z) : M ProductData.t :=
  match api_products env productId with
  | Some data => ret data
  | None => throw RequestError
  end.

Definition api_get_stock (env : Env) (productId : Z) : M Stock.t :=
  match api_stock env productId with
  | Some stock => ret stock
  | None => throw RequestError
  end.

(** ** The cart manager *)


Definition persistCartOnLocalStorage (env : Env) (cart : Cart) : M unit :=
  localStorage_setItem env storage_key (JSON_stringify (json_of_cart cart)).

(** [cart.find((item) => item.id === productId)] *)
Definition find_product (cart : Cart) (productId : Z) : option Product.t :=
  List.find (fun item => Product.id item =? productId) cart.

Definition handleAddNewProduct (env : Env) (cart : Cart) (productId : Z) : M unit :=
  data <- api_get_products env productId ;;
  stock <- api_get_stock env (ProductData.id data) ;;
  if Stock.amount stock =? 0 then showToastError msg_out_of_stock
  else
    let updatedCart := cart ++ [ProductData.with_amount data 1] in
    setCart updatedCart ;;
    persistCartOnLocalStorage env updatedCart.

(** [++item.amount] also writes the new quantity into the entry of the old
    list; nothing reads the old list after the [map]. *)
Definition handleUpdateAmountOnExistingProduct
    (env : Env) (cart : Cart) (productFound : Product.t) : M unit :=
  stock <- api_get_stock env (Product.id productFound) ;;
  if Product.amount productFound + 1 >? Stock.amount stock
  then showToastError msg_out_of_stock
  else
    let updatedCart :=
      map (fun item =>
             if Product.id item =? Product.id productFound
             then Product.with_amount item (Product.amount item + 1)
             else item) cart in
    setCart updatedCart ;;
    persistCartOnLocalStorage env updatedCart.

(** The operations read [cart] from the render that created them. Each
    is a [try] block and the [catch] that shows the error of the
    operation. *)
Definition addProduct_try (env : Env) (cart : Cart) (productId : Z) : M unit :=
  match find_product cart productId with
  | None => handleAddNewProduct env cart productId
  | Some productFound => handleUpdateAmountOnExistingProduct env cart productFound
  end.

Definition addProduct (env : Env) (cart : Cart) (productId : Z) : M unit :=
  try_catch (addProduct_try env cart productId) (showToastError msg_add).

Definition removeProduct_try (env : Env) (cart : Cart) (productId : Z) : M unit :=
  match find_product cart productId with
  | None => showToastError msg_remove
  | Some _ =>
      let updatedCart :=
        List.filter (fun item => negb (Product.id item =? productId)) cart in
      setCart updatedCart ;;
      persistCartOnLocalStorage env updatedCart
  end.

Definition removeProduct (env : Env) (cart : Cart) (productId : Z) : M unit :=
  try_catch (removeProduct_try env cart productId) (showToastError msg_remove).

Definition updateProductAmount_try
    (env : Env) (cart : Cart) (productId amount : Z) : M unit :=
  let productFound := find_product cart productId in
  if (amount <=? 0)
     || match productFound with
        | None => true
        | Some found => Product.amount found <=? 0
        end
  then showToastError msg_update
  else
    match productFound with
    | None => ret tt (* not reached: the guard returned *)
    | Some found =>
        stock <- api_get_stock env productId ;;
        if Product.amount found + amount >? Stock.amount stock
        then showToastError msg_out_of_stock
        else
          let updatedCart :=
            map (fun item =>
                   if Product.id item =? Product.id found
                   then Product.with_amount item amount
                   else item) cart in
          setCart updatedCart ;;
          persistCartOnLocalStorage env updatedCart
    end.

Definition updateProductAmount (env : Env) (cart : Cart) (productId amount : Z) : M unit :=
  try_catch (updateProductAmount_try env cart productId amount) (showToastError msg_update).

(** An operation called in a world reads the cart of that world. *)
Inductive op :=
  | AddProduct (productId : Z)
  | RemoveProduct (productId : Z)
  | UpdateProductAmount (productId amount : Z).

Definition try_block (env : Env) (o : op) (w : World) : (unit + exn) * World :=
  match o with
  | AddProduct productId => addProduct_try env (cart_state w) productId w
  | RemoveProduct productId => removeProduct_try env (cart_state w) productId w
  | UpdateProductAmount productId amount =>
      updateProductAmount_try env (cart_state w) productId amount w
  end.

(** The message of the [catch] of each operation. *)
Definition catch_message (o : op) : string :=
  match o with
  | AddProduct _ => msg_add
  | RemoveProduct _ => msg_remove
  | UpdateProductAmount _ _ => msg_update
  end.

Definition run (env : Env) (o : op) (w : World) : (unit + exn) * World :=
  match o with
  | AddProduct productId => addProduct env (cart_state w) productId w
  | RemoveProduct productId => removeProduct env (cart_state w) productId w
  | UpdateProductAmount productId amount =>
      updateProductAmount env (cart_state w) productId amount w
  end.


(** The world after a toast, and after a cart is set and persisted. *)
Definition notified (w : World) (message : string) : World :=
  mkWorld (cart_state w) (localStorage w) (toasts w ++ [message]).

Definition committed (w : World) (updatedCart : Cart) : World :=
  mkWorld updatedCart
    (<[storage_key := JSON_stringify (json_of_cart updatedCart)]> (localStorage w))
    (toasts w).

(** [addProduct] on an entry already in the cart, and [updateProductAmount],
    as list functions. *)
Definition increment (productId : Z) (cart : Cart) : Cart :=
  map (fun item =>
         if Product.id item =? productId
         then Product.with_amount item (Product.amount item + 1)
         else item) cart.

Definition set_amount (productId amount : Z) (cart : Cart) : Cart :=
  map (fun item =>
         if Product.id item =? productId
         then Product.with_amount item amount
         else item) cart.

Definition without (productId : Z) (cart : Cart) : Cart :=
  List.filter (fun item => negb (Product.id item =? productId)) cart.

(** ** Sample worlds *)

Definition shoe (i a : Z) : Product.t := Product.mk i "Tenis" 17990 "shoe.jpg" a.

Definition shoe_data (i : Z) : ProductData.t := ProductData.mk i "Tenis" 17990 "shoe.jpg".

(** A shop where every product has [n] units, with a store that accepts
    every write when [writable]. *)
Definition shop (n : Z) (writable : bool) : Env :=
  mkEnv (fun i => Some (shoe_data i)) (fun i => Some (Stock.mk i n)) (fun _ _ => writable).

(** A shop whose requests all fail. *)
Definition offline : Env :=
  mkEnv (fun _ => None) (fun _ => None) (fun _ _ => true).


Definition fresh (cart : Cart) : World := mkWorld cart ∅ [].

(** The same collaborators with a store that accepts every write. *)
Definition accepting (env : Env) : Env :=
  mkEnv (api_products env) (api_stock env) (fun _ _ => true).

(** ** Reading a parsed value as a cart

    The code gives the parsed value the type [Product[]] without a check;
    this is that reading, for the values that have the shape. *)





(** ** Notions used in the proofs about the JSON text *)






#[local] Arguments String.append _ _ : simpl nomatch.

(** ** Notions for whole sessions *)

(** The messages an operation can show. *)
Definition op_messages (o : op) : list string :=
  match o with
  | AddProduct _ => [msg_out_of_stock; msg_add]
  | RemoveProduct _ => [msg_remove]
  | UpdateProductAmount _ _ => [msg_update; msg_out_of_stock]
  end.

(** Everything of an entry but its quantity. *)
Definition attributes (item : Product.t) : ProductData.t :=
  ProductData.mk (Product.id item) (Product.title item) (Product.price item)
    (Product.image item).




(** ** The objects behind the entries

    The entries of a cart are objects, and [handleUpdateAmountOnExistingProduct]
    writes into them: [++item.amount] changes the entry of the list that is
    mapped over, and the spread around it makes a new object for the new
    list. Here the objects live in a heap, a cart is a list of references,
    and [None] stands for a reference to no object, which the language rules
    out. *)

Module Refs.

Record World := mkWorld {
  heap : list Product.t;
  cart_state : list nat;
  localStorage : gmap string string;
  toasts : list string
}.

(** The entries that a list of references stands for. *)
Definition deref (h : list Product.t) (refs : list nat) : option Cart :=
  mapM (fun ref => h !! ref) refs.

(** [cart.map((item) => item.id === productFound.id
      ? { ...item, amount: ++item.amount } : item)]:
    the heap after the callbacks, and the new list. *)
Fixpoint map_increment (h : list Product.t) (productFound : nat) (refs : list nat)
    : option (list Product.t * list nat) :=
  match refs with
  | [] => Some (h, [])
  | ref :: refs' =>
      match h !! ref, h !! productFound with
      | Some item, Some found =>
          if Product.id item =? Product.id found then
            let incremented := Product.with_amount item (Product.amount item + 1) in
            let h1 := <[ref := incremented]> h in
            match map_increment (h1 ++ [incremented]) productFound refs' with
            | Some (h', updatedCart) => Some (h', length h1 :: updatedCart)
            | None => None
            end
          else
            match map_increment h productFound refs' with
            | Some (h', updatedCart) => Some (h', ref :: updatedCart)
            | None => None
            end
      | _, _ => None
      end
  end.

(** [handleUpdateAmountOnExistingProduct] on references: the identifier of
    [productFound] is read for the request, its quantity after the answer. *)
Definition handleUpdateAmountOnExistingProduct
    (env : Env) (cart : list nat) (productFound : nat) (w : World)
    : option ((unit + exn) * World) :=
  match heap w !! productFound with
  | None => None
  | Some found =>
      match api_stock env (Product.id found) with
      | None => Some (inr RequestError, w)
      | Some stock =>
          if Product.amount found + 1 >? Stock.amount stock
          then
            Some (inl tt,
                  mkWorld (heap w) (cart_state w) (localStorage w)
                    (toasts w ++ [msg_out_of_stock]))
          else
            match map_increment (heap w) productFound cart with
            | None => None
            | Some (h', updatedCart) =>
                match deref h' updatedCart with
                | None => None
                | Some entries =>
                    let text := JSON_stringify (json_of_cart entries) in
                    if storage_accepts env storage_key text
                    then
                      Some (inl tt,
                            mkWorld h' updatedCart
                              (<[storage_key := text]> (localStorage w)) (toasts w))
                    else
                      Some (inr QuotaExceededError,
                            mkWorld h' updatedCart (localStorage w) (toasts w))
                end
            end
      end
  end.

End Refs.

(** A world of references and the world of entries it stands for. *)
Definition represents (rw : Refs.World) (w : World) : Prop :=
  Refs.deref (Refs.heap rw) (Refs.cart_state rw) = Some (cart_state w)
  /\ Refs.localStorage rw = localStorage w
  /\ Refs.toasts rw = toasts w.

(** Every reference of the list has its entry in the heap. *)
Definition reads (h : list Product.t) (refs : list nat) (entries : Cart) : Prop :=
  Forall2 (fun ref entry => h !! ref = Some entry) refs entries.

(** A heap of two entries and the world whose cart lists them. *)
Definition two_shoes : Refs.World :=
  Refs.mkWorld [shoe 1 2; shoe 2 1] [0%nat; 1%nat] ∅ [].

(** ** Proof steps for the ways an operation can end *)

(** Membership in a list that is written out. *)
Ltac elem_now :=
  simpl; repeat first [apply list_elem_of_here | apply list_elem_of_further].

(** Close a goal that names the way an operation ended. *)
Ltac settle_shape :=
  first
    [ left; eexists; split; [eassumption | reflexivity]
    | right; left; eexists; split; [|reflexivity]; elem_now
    | right; right; eexists; split; [eassumption | reflexivity] ].

(** ** Proof steps that recur *)

(** Open the operations down to the world they act on. *)
Ltac unfold_cart :=
  unfold run, try_block, addProduct, removeProduct, updateProductAmount,
    addProduct_try, removeProduct_try, updateProductAmount_try,
    handleAddNewProduct, handleUpdateAmountOnExistingProduct,
    persistCartOnLocalStorage, localStorage_setItem, api_get_products, api_get_stock,
    setCart, showToastError, try_catch, bind, ret, throw in *.


(** * Properties *)

Lemma find_product_Some cart productId found :
  find_product cart productId = Some found ->
  found ∈ cart /\ Product.id found = productId.
Proof.
  unfold find_product. intros H. apply find_some in H as [Hin Heq].
  split; [by apply list_elem_of_In | lia].
Qed.

Lemma find_product_None cart productId :
  find_product cart productId = None <-> productId ∉ map Product.id cart.
Proof.
  unfold find_product. induction cart as [|p cart IH]; simpl.
  - split; [intros _ H; inversion H | done].
  - destruct (Z.eqb_spec (Product.id p) productId) as [->|Hne].
    + split; [done | intros H; exfalso; apply H; left].
    + rewrite IH, not_elem_of_cons.
      split; [intros ?; split; [congruence | done] | by intros [_ ?]].
Qed.

(** ** [updateProductAmount] *)

(** The guard of [updateProductAmount]. *)
Lemma guard_rejects (cart : Cart) productId amount :
  amount <= 0
  \/ find_product cart productId = None
  \/ (exists found, find_product cart productId = Some found
                    /\ Product.amount found <= 0) ->
  (amount <=? 0)
  || match find_product cart productId with
     | None => true
     | Some found => Product.amount found <=? 0
     end = true.
Proof.
  intros [H | [-> | (found & -> & H)]].
  - apply orb_true_iff. left. lia.
  - apply orb_true_r.
  - apply orb_true_iff. right. lia.
Qed.

Lemma run_updateProductAmount_guard env w productId amount :
  amount <= 0
  \/ find_product (cart_state w) productId = None
  \/ (exists found, find_product (cart_state w) productId = Some found
                    /\ Product.amount found <= 0) ->
  run env (UpdateProductAmount productId amount) w = (inl tt, notified w msg_update).
Proof.
  intros H. unfold run, updateProductAmount, updateProductAmount_try, try_catch.
  by rewrite guard_rejects.
Qed.

(** C6: [updateProductAmount] with a requested amount that is not positive,
    or no entry with the identifier, or an entry whose quantity is not
    positive, changes neither the cart nor the store and shows the
    quantity-change error. *)
Theorem updateProductAmount_rejects_invalid env w productId amount :
  amount <= 0
  \/ find_product (cart_state w) productId = None
  \/ (exists found, find_product (cart_state w) productId = Some found
                    /\ Product.amount found <= 0) ->
  run env (UpdateProductAmount productId amount) w
  = (inl tt, mkWorld (cart_state w) (localStorage w) (toasts w ++ [msg_update])).
Proof.
  intros Hinvalid.
  change (run env (UpdateProductAmount productId amount) w)
    with (try_catch (updateProductAmount_try env (cart_state w) productId amount)
            (showToastError msg_update) w).
  unfold try_catch, updateProductAmount_try.
  rewrite (guard_rejects _ _ _ Hinvalid).
  unfold showToastError. reflexivity.
Qed.

Lemma updateProductAmount_rejects_invalid_witness :
  run (shop 5 true) (UpdateProductAmount 1 0) (fresh [shoe 1 2])
  = (inl tt, notified (fresh [shoe 1 2]) msg_update).
Proof. apply updateProductAmount_rejects_invalid. left. lia. Defined.

(** What [updateProductAmount] does once its guard lets it through and the
    stock request is answered. *)
Lemma run_updateProductAmount_valid env w productId amount found stock :
  0 < amount ->
  find_product (cart_state w) productId = Some found ->
  0 < Product.amount found ->
  api_stock env productId = Some stock ->
  run env (UpdateProductAmount productId amount) w =
    if Product.amount found + amount >? Stock.amount stock
    then (inl tt, notified w msg_out_of_stock)
    else
      let updatedCart := set_amount productId amount (cart_state w) in
      if storage_accepts env storage_key (JSON_stringify (json_of_cart updatedCart))
      then (inl tt, committed w updatedCart)
      else (inl tt, notified (mkWorld updatedCart (localStorage w) (toasts w)) msg_update).
Proof.
  intros Ha Hfind Hq Hstock. pose proof (find_product_Some _ _ _ Hfind) as [_ Hid].
  unfold run, updateProductAmount, updateProductAmount_try, try_catch, bind, api_get_stock.
  rewrite Hfind, Hstock.
  replace (amount <=? 0) with false by lia.
  replace (Product.amount found <=? 0) with false by lia.
  simpl. rewrite Hid. fold (set_amount productId amount (cart_state w)).
  destruct (Product.amount found + amount >? Stock.amount stock); [reflexivity|].
  unfold persistCartOnLocalStorage, localStorage_setItem, setCart. simpl.
  destruct (storage_accepts env storage_key _); reflexivity.
Qed.

(** C1: the example of the specification on the code: with two units in
    the cart and five in stock, setting the quantity to four is refused as
    out of stock, because the check adds the quantity already in the cart
    to the requested one. *)
Theorem updateProductAmount_example_refused :
  run (shop 5 true) (UpdateProductAmount 1 4) (fresh [shoe 1 2])
  = (inl tt, notified (fresh [shoe 1 2]) msg_out_of_stock).
Proof.
  rewrite (run_updateProductAmount_valid _ _ 1 4 (shoe 1 2) (Stock.mk 1 5)) by (reflexivity || lia).
  reflexivity.
Qed.

(** The other half of the example: six units are refused as well. *)
Example updateProductAmount_example_over_stock :
  run (shop 5 true) (UpdateProductAmount 1 6) (fresh [shoe 1 2])
  = (inl tt, notified (fresh [shoe 1 2]) msg_out_of_stock).
Proof.
  rewrite (run_updateProductAmount_valid _ _ 1 6 (shoe 1 2) (Stock.mk 1 5))
    by (reflexivity || lia).
  reflexivity.
Qed.

(** A requested amount above the stock is always refused. *)
Lemma updateProductAmount_over_stock env w productId amount found stock :
  0 < amount ->
  find_product (cart_state w) productId = Some found ->
  0 < Product.amount found ->
  api_stock env productId = Some stock ->
  Stock.amount stock < amount ->
  run env (UpdateProductAmount productId amount) w = (inl tt, notified w msg_out_of_stock).
Proof.
  intros Ha Hfind Hq Hstock Hover.
  rewrite (run_updateProductAmount_valid _ _ _ _ _ _ Ha Hfind Hq Hstock).
  by replace (Product.amount found + amount >? Stock.amount stock) with true by lia.
Qed.

(** The quantity is set exactly when the quantity in the cart plus the
    requested one is within the stock. *)
Lemma updateProductAmount_sets_iff env w productId amount found stock :
  0 < amount ->
  find_product (cart_state w) productId = Some found ->
  0 < Product.amount found ->
  api_stock env productId = Some stock ->
  (Product.amount found + amount <= Stock.amount stock ->
     cart_state (run env (UpdateProductAmount productId amount) w).2
     = set_amount productId amount (cart_state w))
  /\ (Stock.amount stock < Product.amount found + amount ->
        run env (UpdateProductAmount productId amount) w
        = (inl tt, notified w msg_out_of_stock)).
Proof.
  intros Ha Hfind Hq Hstock.
  rewrite (run_updateProductAmount_valid _ _ _ _ _ _ Ha Hfind Hq Hstock).
  split; intros Hcmp.
  - replace (Product.amount found + amount >? Stock.amount stock) with false by lia.
    cbv zeta. by destruct (storage_accepts env storage_key _).
  - by replace (Product.amount found + amount >? Stock.amount stock) with true by lia.
Qed.

(** ** [addProduct] *)

Lemma run_addProduct_existing env w productId found stock :
  find_product (cart_state w) productId = Some found ->
  api_stock env productId = Some stock ->
  run env (AddProduct productId) w =
    if Product.amount found + 1 >? Stock.amount stock
    then (inl tt, notified w msg_out_of_stock)
    else
      let updatedCart := increment productId (cart_state w) in
      if storage_accepts env storage_key (JSON_stringify (json_of_cart updatedCart))
      then (inl tt, committed w updatedCart)
      else (inl tt, notified (mkWorld updatedCart (localStorage w) (toasts w)) msg_add).
Proof.
  intros Hfind Hstock. pose proof (find_product_Some _ _ _ Hfind) as [_ Hid].
  unfold run, addProduct, addProduct_try, try_catch. rewrite Hfind.
  unfold handleUpdateAmountOnExistingProduct, bind, api_get_stock.
  rewrite Hid, Hstock. simpl. fold (increment productId (cart_state w)).
  destruct (Product.amount found + 1 >? Stock.amount stock); [reflexivity|].
  unfold persistCartOnLocalStorage, localStorage_setItem, setCart. simpl.
  destruct (storage_accepts env storage_key _); reflexivity.
Qed.

Lemma run_addProduct_new env w productId data stock :
  find_product (cart_state w) productId = None ->
  api_products env productId = Some data ->
  api_stock env (ProductData.id data) = Some stock ->
  run env (AddProduct productId) w =
    if Stock.amount stock =? 0
    then (inl tt, notified w msg_out_of_stock)
    else
      let updatedCart := cart_state w ++ [ProductData.with_amount data 1] in
      if storage_accepts env storage_key (JSON_stringify (json_of_cart updatedCart))
      then (inl tt, committed w updatedCart)
      else (inl tt, notified (mkWorld updatedCart (localStorage w) (toasts w)) msg_add).
Proof.
  intros Hfind Hdata Hstock.
  unfold run, addProduct, addProduct_try, try_catch. rewrite Hfind.
  unfold handleAddNewProduct, bind, api_get_products, api_get_stock.
  rewrite Hdata. simpl. rewrite Hstock. simpl.
  destruct (Stock.amount stock =? 0); [reflexivity|].
  unfold persistCartOnLocalStorage, localStorage_setItem, setCart. simpl.
  destruct (storage_accepts env storage_key _); reflexivity.
Qed.

Lemma run_removeProduct_found env w productId found :
  find_product (cart_state w) productId = Some found ->
  run env (RemoveProduct productId) w =
    let updatedCart := without productId (cart_state w) in
    if storage_accepts env storage_key (JSON_stringify (json_of_cart updatedCart))
    then (inl tt, committed w updatedCart)
    else (inl tt, notified (mkWorld updatedCart (localStorage w) (toasts w)) msg_remove).
Proof.
  intros Hfind. unfold run, removeProduct, removeProduct_try, try_catch. rewrite Hfind.
  unfold bind, persistCartOnLocalStorage, localStorage_setItem, setCart. simpl.
  fold (without productId (cart_state w)).
  destruct (storage_accepts env storage_key _); reflexivity.
Qed.




(** C4: when the product is not in the cart and both requests are
    answered, [addProduct] with a positive stock appends one entry, the
    fetched product with quantity 1, after the entries that were there; with
    a stock of zero nothing changes and the out-of-stock error is shown. *)
Theorem addProduct_appends_entry env w productId data stock :
  find_product (cart_state w) productId = None ->
  api_products env productId = Some data ->
  api_stock env (ProductData.id data) = Some stock ->
  (0 < Stock.amount stock ->
     cart_state (run env (AddProduct productId) w).2
     = cart_state w ++ [ProductData.with_amount data 1])
  /\ (Stock.amount stock = 0 ->
        run env (AddProduct productId) w = (inl tt, notified w msg_out_of_stock)).
Proof.
  intros Hfind Hdata Hstock. rewrite (run_addProduct_new _ _ _ _ _ Hfind Hdata Hstock).
  split; intros Hs.
  - replace (Stock.amount stock =? 0) with false by lia. simpl.
    by destruct (storage_accepts env storage_key _).
  - by replace (Stock.amount stock =? 0) with true by lia.
Qed.

Lemma addProduct_appends_entry_witness :
  cart_state (run (shop 5 true) (AddProduct 3) (fresh [shoe 1 2; shoe 2 1])).2
  = [shoe 1 2; shoe 2 1; shoe 3 1].
Proof.
  refine (proj1 (addProduct_appends_entry (shop 5 true) (fresh [shoe 1 2; shoe 2 1]) 3
                   (shoe_data 3) (Stock.mk 3 5) _ _ _) _); (reflexivity || (simpl; lia)).
Defined.

(** C10: for a product that is not in the cart, [addProduct] takes the
    out-of-stock path exactly when the fetched stock is 0; with a negative
    stock the product is appended with quantity 1. *)
Theorem addProduct_rejects_only_zero_stock env w productId data stock :
  find_product (cart_state w) productId = None ->
  api_products env productId = Some data ->
  api_stock env (ProductData.id data) = Some stock ->
  (run env (AddProduct productId) w = (inl tt, notified w msg_out_of_stock)
   <-> Stock.amount stock = 0)
  /\ (Stock.amount stock < 0 ->
        cart_state (run env (AddProduct productId) w).2
        = cart_state w ++ [ProductData.with_amount data 1]).
Proof.
  intros Hfind Hdata Hstock. rewrite (run_addProduct_new _ _ _ _ _ Hfind Hdata Hstock).
  split; [split|].
  - destruct (Z.eqb_spec (Stock.amount stock) 0) as [|Hne]; [done|].
    intros Heq. exfalso.
    assert (Hlen : length (cart_state w ++ [ProductData.with_amount data 1])
                   = length (cart_state w)); [|rewrite length_app in Hlen; simpl in Hlen; lia].
    simpl in Heq. destruct (storage_accepts env storage_key _);
      injection Heq as Hcart _; by rewrite Hcart.
  - intros Hs. by replace (Stock.amount stock =? 0) with true by lia.
  - intros Hs. replace (Stock.amount stock =? 0) with false by lia. simpl.
    by destruct (storage_accepts env storage_key _).
Qed.

Lemma addProduct_rejects_only_zero_stock_witness :
  cart_state (run (shop (-2) true) (AddProduct 3) (fresh [shoe 1 2])).2
  = [shoe 1 2; shoe 3 1].
Proof.
  refine (proj2 (addProduct_rejects_only_zero_stock (shop (-2) true) (fresh [shoe 1 2]) 3
                   (shoe_data 3) (Stock.mk 3 (-2)) _ _ _) _); (reflexivity || (simpl; lia)).
Defined.

(** ** [removeProduct] *)

Lemma without_unique productId before entry after :
  NoDup (map Product.id (before ++ entry :: after)) ->
  Product.id entry = productId ->
  without productId (before ++ entry :: after) = before ++ after.
Proof.
  intros Hnodup Hid. rewrite fmap_app, fmap_cons in Hnodup.
  apply NoDup_app in Hnodup as (_ & Hbefore & Hafter).
  apply NoDup_cons in Hafter as [Hafter _].
  assert (Hkeep : forall l : Cart, productId ∉ map Product.id l -> without productId l = l).
  { induction l as [|p l IH]; [done|]. rewrite fmap_cons, not_elem_of_cons.
    intros [Hne Hl]. unfold without in *. simpl.
    replace (Product.id p =? productId) with false by lia. simpl. by rewrite IH. }
  unfold without in *. rewrite List.filter_app. simpl.
  replace (Product.id entry =? productId) with true by lia. simpl.
  rewrite !Hkeep; [done | by rewrite <- Hid |].
  intros Hin. apply (Hbefore productId Hin). rewrite Hid. left.
Qed.

(** C5: [removeProduct] on a cart that has an entry with the identifier
    leaves the entries with another identifier, in their order, and only
    those: when identifiers are distinct, the original cart minus that one
    entry. With no such entry nothing changes and the removal error is
    shown. *)
Theorem removeProduct_removes_entry env w productId :
  let cart := cart_state w in
  let cart' := cart_state (run env (RemoveProduct productId) w).2 in
  (forall found, find_product cart productId = Some found ->
     cart' = List.filter (fun item => negb (Product.id item =? productId)) cart
     /\ forall before entry after,
          NoDup (map Product.id cart) ->
          cart = before ++ entry :: after -> Product.id entry = productId ->
          cart' = before ++ after)
  /\ (find_product cart productId = None ->
        run env (RemoveProduct productId) w = (inl tt, notified w msg_remove)).
Proof.
  cbv zeta. split.
  - intros found Hfind. rewrite (run_removeProduct_found _ _ _ _ Hfind). cbv zeta.
    assert (Hcart :
      cart_state
        (if storage_accepts env storage_key
              (JSON_stringify (json_of_cart (without productId (cart_state w))))
         then (inl tt : unit + exn, committed w (without productId (cart_state w)))
         else (inl tt, notified (mkWorld (without productId (cart_state w))
                                   (localStorage w) (toasts w)) msg_remove)).2
      = without productId (cart_state w)).
    { by destruct (storage_accepts env storage_key _). }
    rewrite Hcart. split; [done|].
    intros before entry after Hnodup Hcart' Hid. rewrite Hcart' in *.
    by apply without_unique.
  - intros Hfind. unfold run, removeProduct, removeProduct_try, try_catch.
    by rewrite Hfind.
Qed.

Lemma removeProduct_removes_entry_witness :
  cart_state (run (shop 5 true) (RemoveProduct 2) (fresh [shoe 1 2; shoe 2 1; shoe 3 4])).2
  = [shoe 1 2; shoe 3 4].
Proof.
  destruct (removeProduct_removes_entry (shop 5 true) (fresh [shoe 1 2; shoe 2 1; shoe 3 4]) 2)
    as [Hfound _].
  destruct (Hfound (shoe 2 1) eq_refl) as [_ Hminus].
  apply (Hminus [shoe 1 2] (shoe 2 1) [shoe 3 4]); [|reflexivity..].
  simpl. compute_done.
Defined.

(** ** Failures of the collaborators *)

Lemma run_returns env o w : (run env o w).1 = inl tt.
Proof. destruct o; unfold_cart; repeat case_match; by simplify_eq/=. Qed.

(** C8 (amended): no exception leaves an operation, and a failure inside
    its [try] block is followed by the toast of its [catch] and by nothing
    else. A request that fails leaves the world as it was; a write that the
    store refuses comes after [setCart], so the cart in memory is already
    the one that an accepted write would have stored, while the store and
    the toasts are as before. *)
Theorem failures_absorbed env o w :
  (run env o w).1 = inl tt
  /\ forall e w1, try_block env o w = (inr e, w1) ->
       run env o w = (inl tt, notified w1 (catch_message o))
       /\ match e with
          | RequestError => w1 = w
          | QuotaExceededError =>
              exists updatedCart,
                w1 = mkWorld updatedCart (localStorage w) (toasts w)
                /\ run (accepting env) o w = (inl tt, committed w updatedCart)
          | SyntaxError => False
          end.
Proof.
  split; [apply run_returns|]. intros e w1 Htry. split.
  - destruct o; unfold run, addProduct, removeProduct, updateProductAmount, try_catch;
      unfold try_block in Htry; by rewrite Htry.
  - destruct o; unfold_cart; simpl; repeat case_match; simplify_eq/=;
      try done; try (by destruct w); eexists; split; reflexivity.
Qed.

Lemma failures_absorbed_witness :
  run offline (AddProduct 1) (fresh [shoe 1 2])
  = (inl tt, notified (fresh [shoe 1 2]) msg_add).
Proof.
  destruct (failures_absorbed offline (AddProduct 1) (fresh [shoe 1 2])) as [_ Hcatch].
  destruct (Hcatch RequestError (fresh [shoe 1 2]) eq_refl) as [Hrun _].
  exact Hrun.
Defined.

(** C8, as stated, fails: the store refuses the write of [removeProduct],
    the failure is caught, and the cart in memory has lost the entry all the
    same. *)
Lemma refused_write_changes_cart :
  try_block (shop 5 false) (RemoveProduct 1) (fresh [shoe 1 2])
    = (inr QuotaExceededError, fresh [])
  /\ cart_state (run (shop 5 false) (RemoveProduct 1) (fresh [shoe 1 2])).2
     <> cart_state (fresh [shoe 1 2]).
Proof. split; [reflexivity | discriminate]. Qed.

(** ** The cart invariant *)







(** The cart after an operation is the old cart or one of four rewrites of
    it. *)
Lemma run_cart_cases env o w :
  let cart := cart_state w in
  let cart' := cart_state (run env o w).2 in
  cart' = cart
  \/ (exists productId found,
        o = AddProduct productId /\ find_product cart productId = Some found
        /\ cart' = increment productId cart)
  \/ (exists productId data,
        o = AddProduct productId /\ find_product cart productId = None
        /\ api_products env productId = Some data
        /\ cart' = cart ++ [ProductData.with_amount data 1])
  \/ (exists productId, o = RemoveProduct productId /\ cart' = without productId cart)
  \/ (exists productId amount,
        o = UpdateProductAmount productId amount /\ 0 < amount
        /\ cart' = set_amount productId amount cart).
Proof.
  cbv zeta. destruct o as [productId|productId|productId amount].
  - destruct (find_product (cart_state w) productId) as [found|] eqn:Hfind.
    + destruct (api_stock env productId) as [stock|] eqn:Hstock.
      * rewrite (run_addProduct_existing _ _ _ _ _ Hfind Hstock). cbv zeta.
        repeat case_match; simpl; eauto 10.
      * pose proof (find_product_Some _ _ _ Hfind) as [_ Hid].
        left. unfold_cart. rewrite Hfind, Hid, Hstock. reflexivity.
    + destruct (api_products env productId) as [data|] eqn:Hdata;
        [destruct (api_stock env (ProductData.id data)) as [stock|] eqn:Hstock|].
      * rewrite (run_addProduct_new _ _ _ _ _ Hfind Hdata Hstock). cbv zeta.
        repeat case_match; simpl; eauto 10.
      * left. unfold_cart. rewrite Hfind, Hdata. simpl. rewrite Hstock. reflexivity.
      * left. unfold_cart. rewrite Hfind, Hdata. reflexivity.
  - destruct (find_product (cart_state w) productId) as [found|] eqn:Hfind.
    + rewrite (run_removeProduct_found _ _ _ _ Hfind). cbv zeta.
      repeat case_match; simpl; eauto 10.
    + left. unfold_cart. rewrite Hfind. reflexivity.
  - destruct (Z.leb_spec amount 0) as [Hle|Hlt];
      [left; rewrite run_updateProductAmount_guard; [done | by left]|].
    destruct (find_product (cart_state w) productId) as [found|] eqn:Hfind;
      [|left; rewrite run_updateProductAmount_guard; [done | right; by left]].
    destruct (Z.leb_spec (Product.amount found) 0) as [Hq|Hq];
      [left; rewrite run_updateProductAmount_guard; [done | right; right; eauto]|].
    destruct (api_stock env productId) as [stock|] eqn:Hstock.
    + rewrite (run_updateProductAmount_valid _ _ _ _ _ _ Hlt Hfind Hq Hstock). cbv zeta.
      repeat case_match; simpl; eauto 10.
    + left. unfold_cart. rewrite Hfind, Hstock.
      replace (amount <=? 0) with false by lia.
      replace (Product.amount found <=? 0) with false by lia. reflexivity.
Qed.




(** ** [JSON.parse] reads back what [JSON.stringify] writes *)

Lemma append_assoc (a b c : string) : (a +:+ b) +:+ c = a +:+ (b +:+ c).
Proof. induction a as [|x a IH]; simpl; [done | by f_equal]. Qed.









Lemma render_app a b : render (a ++ b) = render a +:+ render b.
Proof. induction a as [|t a IH]; simpl; [done | by rewrite IH, append_assoc]. Qed.
















(** ** The stored snapshot *)





(** ** The initial cart *)




(** * Further properties of the cart manager *)

(** ** How an operation can end *)

(** An operation commits a cart to memory and store, or shows one of its
    messages and changes nothing else, or sets a cart that the store then
    refuses and shows the message of its [catch]. *)
Lemma run_shapes env o w :
  (exists c,
     storage_accepts env storage_key (JSON_stringify (json_of_cart c)) = true
     /\ run env o w = (inl tt, committed w c))
  \/ (exists m, m ∈ op_messages o /\ run env o w = (inl tt, notified w m))
  \/ (exists c,
        storage_accepts env storage_key (JSON_stringify (json_of_cart c)) = false
        /\ run env o w
           = (inl tt, notified (mkWorld c (localStorage w) (toasts w)) (catch_message o))).
Proof.
  destruct o as [productId|productId|productId amount].
  - destruct (find_product (cart_state w) productId) as [found|] eqn:Hfind.
    + destruct (api_stock env productId) as [stock|] eqn:Hstock.
      * rewrite (run_addProduct_existing _ _ _ _ _ Hfind Hstock). cbv zeta.
        repeat case_match; settle_shape.
      * pose proof (find_product_Some _ _ _ Hfind) as [_ Hid].
        right. left. exists msg_add. split; [elem_now|].
        unfold_cart. by rewrite Hfind, Hid, Hstock.
    + destruct (api_products env productId) as [data|] eqn:Hdata;
        [destruct (api_stock env (ProductData.id data)) as [stock|] eqn:Hstock|].
      * rewrite (run_addProduct_new _ _ _ _ _ Hfind Hdata Hstock). cbv zeta.
        repeat case_match; settle_shape.
      * right. left. exists msg_add. split; [elem_now|].
        unfold_cart. rewrite Hfind, Hdata. simpl. by rewrite Hstock.
      * right. left. exists msg_add. split; [elem_now|].
        unfold_cart. by rewrite Hfind, Hdata.
  - destruct (find_product (cart_state w) productId) as [found|] eqn:Hfind.
    + rewrite (run_removeProduct_found _ _ _ _ Hfind). cbv zeta.
      repeat case_match; settle_shape.
    + right. left. exists msg_remove. split; [elem_now|].
      unfold_cart. by rewrite Hfind.
  - assert (Hrejected :
      amount <= 0
      \/ find_product (cart_state w) productId = None
      \/ (exists found, find_product (cart_state w) productId = Some found
                        /\ Product.amount found <= 0) ->
      exists m, m ∈ op_messages (UpdateProductAmount productId amount)
                /\ run env (UpdateProductAmount productId amount) w
                   = (inl tt, notified w m)).
    { intros H. exists msg_update. split; [elem_now|].
      by apply run_updateProductAmount_guard. }
    destruct (Z.leb_spec amount 0) as [Hle|Hlt]; [right; left; apply Hrejected; by left|].
    destruct (find_product (cart_state w) productId) as [found|] eqn:Hfind;
      [|right; left; apply Hrejected; right; by left].
    destruct (Z.leb_spec (Product.amount found) 0) as [Hq|Hq];
      [right; left; apply Hrejected; right; right; eauto|].
    destruct (api_stock env productId) as [stock|] eqn:Hstock.
    + rewrite (run_updateProductAmount_valid _ _ _ _ _ _ Hlt Hfind Hq Hstock). cbv zeta.
      repeat case_match; settle_shape.
    + right. left. exists msg_update. split; [elem_now|].
      unfold_cart. rewrite Hfind, Hstock.
      replace (amount <=? 0) with false by lia.
      by replace (Product.amount found <=? 0) with false by lia.
Qed.

Lemma catch_message_listed o : catch_message o ∈ op_messages o.
Proof. destruct o; elem_now. Qed.


(** ** The store *)



(** X2: no operation reads or writes a key of the store other than the
    cart key: every other key holds after the operation what it held
    before. *)
Theorem other_keys_untouched env o w key :
  key <> storage_key ->
  localStorage (run env o w).2 !! key = localStorage w !! key.
Proof.
  intros Hkey.
  destruct (run_shapes env o w) as [(c & _ & ->) | [(m & _ & ->) | (c & _ & ->)]];
    simpl; [|done..].
  by apply lookup_insert_ne.
Qed.

Lemma other_keys_untouched_witness :
  localStorage
    (run (shop 5 true) (AddProduct 3)
       (mkWorld [] {[ "theme"%string := "dark"%string ]} [])).2 !! "theme"%string
  = Some "dark"%string.
Proof.
  rewrite (other_keys_untouched (shop 5 true) (AddProduct 3)
             (mkWorld [] {[ "theme"%string := "dark"%string ]} []) "theme"%string)
    by discriminate.
  apply lookup_singleton_eq.
Defined.

(** X3: an operation whose store accepts every write and that shows a
    toast has changed neither the cart in memory nor the store: with such a
    store every operation takes effect as a whole or not at all. *)
Theorem toast_means_unchanged env o w :
  (forall text, storage_accepts env storage_key text = true) ->
  toasts (run env o w).2 <> toasts w ->
  cart_state (run env o w).2 = cart_state w
  /\ localStorage (run env o w).2 = localStorage w.
Proof.
  intros Haccepts Htoast.
  destruct (run_shapes env o w) as [(c & _ & Hrun) | [(m & _ & Hrun) | (c & Hrefused & _)]].
  - rewrite Hrun in Htoast. by destruct Htoast.
  - by rewrite Hrun.
  - by rewrite Haccepts in Hrefused.
Qed.

Lemma toast_means_unchanged_witness :
  cart_state (run (shop 0 true) (AddProduct 3) (fresh [shoe 1 2])).2 = [shoe 1 2]
  /\ localStorage (run (shop 0 true) (AddProduct 3) (fresh [shoe 1 2])).2 = ∅.
Proof.
  apply (toast_means_unchanged (shop 0 true) (AddProduct 3) (fresh [shoe 1 2]));
    [reflexivity | discriminate].
Defined.

(** ** The toasts *)

(** X4: an operation shows at most one toast, after the toasts that were
    there, and only a message of its own: [addProduct] the out-of-stock or
    the addition error, [removeProduct] the removal error,
    [updateProductAmount] the quantity-change or the out-of-stock error. *)
Theorem one_toast_at_most env o w :
  toasts (run env o w).2 = toasts w
  \/ exists m, m ∈ op_messages o /\ toasts (run env o w).2 = toasts w ++ [m].
Proof.
  destruct (run_shapes env o w) as [(c & _ & ->) | [(m & Hm & ->) | (c & _ & ->)]].
  - by left.
  - right. by exists m.
  - right. exists (catch_message o). split; [apply catch_message_listed | done].
Qed.

(** ** What the operations keep of the cart *)

Lemma increment_attributes productId cart :
  map attributes (increment productId cart) = map attributes cart.
Proof.
  unfold increment. rewrite <- list_fmap_compose. apply list_fmap_ext.
  intros i item _. simpl. by destruct (Product.id item =? productId).
Qed.

Lemma set_amount_attributes productId amount cart :
  map attributes (set_amount productId amount cart) = map attributes cart.
Proof.
  unfold set_amount. rewrite <- list_fmap_compose. apply list_fmap_ext.
  intros i item _. simpl. by destruct (Product.id item =? productId).
Qed.

(** X5: [updateProductAmount] changes nothing but quantities: after it,
    whatever its arguments and whatever the collaborators answer, the cart
    has the same entries in the same order with the same identifiers, names,
    prices and images. *)
Theorem updateProductAmount_keeps_attributes env w productId amount :
  map attributes (cart_state (run env (UpdateProductAmount productId amount) w).2)
  = map attributes (cart_state w).
Proof.
  destruct (run_cart_cases env (UpdateProductAmount productId amount) w)
    as [-> | [(? & ? & [=] & _) | [(? & ? & [=] & _)
       | [(? & [=] & _) | (? & ? & [= <- <-] & _ & ->)]]]]; [done|].
  apply set_amount_attributes.
Qed.

(** X6: [addProduct] never removes, reorders or relabels an entry: the
    entries that were in the cart are still there, first and in their order,
    with their identifiers, names, prices and images, and at most one entry
    follows them. *)
Theorem addProduct_keeps_entries env w productId :
  let cart' := cart_state (run env (AddProduct productId) w).2 in
  map attributes (cart_state w) `prefix_of` map attributes cart'
  /\ (length cart' <= S (length (cart_state w)))%nat.
Proof.
  cbv zeta.
  destruct (run_cart_cases env (AddProduct productId) w)
    as [-> | [(? & ? & _ & _ & ->) | [(? & data & _ & _ & _ & ->)
       | [(? & [=] & _) | (? & ? & [=] & _)]]]].
  - split; [done | lia].
  - rewrite increment_attributes. unfold increment. rewrite length_map. split; [done | lia].
  - rewrite fmap_app, length_app. simpl. split; [by apply prefix_app_r | lia].
Qed.

Lemma find_product_without productId cart :
  find_product (without productId cart) productId = None.
Proof.
  apply find_product_None. intros Hin.
  apply list_elem_of_fmap in Hin as (item & Hid & Hin).
  apply list_elem_of_In, List.filter_In in Hin as [_ Hkeep].
  apply negb_true_iff in Hkeep. lia.
Qed.

(** X7: removing the same product a second time is always refused: the
    second [removeProduct] shows the removal error and changes nothing,
    whether or not the first one found the product and whatever the store
    did with its write. *)
Theorem removeProduct_again_refused env env' w productId :
  run env' (RemoveProduct productId) (run env (RemoveProduct productId) w).2
  = (inl tt, notified (run env (RemoveProduct productId) w).2 msg_remove).
Proof.
  assert (Hgone :
    find_product (cart_state (run env (RemoveProduct productId) w).2) productId = None).
  { destruct (find_product (cart_state w) productId) as [found|] eqn:Hfind.
    - rewrite (run_removeProduct_found _ _ _ _ Hfind). cbv zeta.
      destruct (storage_accepts env storage_key _); apply find_product_without.
    - unfold_cart. by rewrite Hfind. }
  set (w1 := (run env (RemoveProduct productId) w).2) in *.
  unfold run, removeProduct, removeProduct_try, try_catch. by rewrite Hgone.
Qed.

Lemma without_absent productId cart :
  find_product cart productId = None -> without productId cart = cart.
Proof.
  intros Hfind. apply find_product_None in Hfind.
  induction cart as [|p cart IH]; [done|].
  rewrite fmap_cons, not_elem_of_cons in Hfind. destruct Hfind as [Hne Hcart].
  unfold without in *. simpl.
  replace (Product.id p =? productId) with false by lia. simpl. by rewrite IH.
Qed.

Lemma find_product_appended productId cart entry :
  find_product cart productId = None -> Product.id entry = productId ->
  find_product (cart ++ [entry]) productId = Some entry.
Proof.
  intros Hfind Hid. apply find_product_None in Hfind. unfold find_product.
  induction cart as [|p cart IH]; simpl.
  - by replace (Product.id entry =? productId) with true by lia.
  - rewrite fmap_cons, not_elem_of_cons in Hfind. destruct Hfind as [Hne Hcart].
    replace (Product.id p =? productId) with false by lia. by apply IH.
Qed.

(** X8: adding a product that was not in the cart and then removing it
    gives the cart back as it was, when the product service answers with
    the product that was asked for and its stock is not zero; this holds
    whether or not the store accepts the two writes. *)
Theorem add_then_remove env env' w productId data stock :
  find_product (cart_state w) productId = None ->
  api_products env productId = Some data ->
  ProductData.id data = productId ->
  api_stock env productId = Some stock ->
  Stock.amount stock <> 0 ->
  cart_state (run env' (RemoveProduct productId) (run env (AddProduct productId) w).2).2
  = cart_state w.
Proof.
  intros Hfind Hdata Hid Hstock Hnonzero.
  assert (Hadded : cart_state (run env (AddProduct productId) w).2
                   = cart_state w ++ [ProductData.with_amount data 1]).
  { rewrite <- Hid in Hstock. rewrite (run_addProduct_new _ _ _ _ _ Hfind Hdata Hstock).
    replace (Stock.amount stock =? 0) with false by lia. cbv zeta.
    by destruct (storage_accepts env storage_key _). }
  set (w1 := (run env (AddProduct productId) w).2) in *.
  assert (Hfound : find_product (cart_state w1) productId
                   = Some (ProductData.with_amount data 1)).
  { rewrite Hadded. by apply find_product_appended. }
  rewrite (run_removeProduct_found _ _ _ _ Hfound). cbv zeta.
  assert (Hback : without productId (cart_state w1) = cart_state w).
  { rewrite Hadded. unfold without. rewrite List.filter_app. simpl.
    replace (ProductData.id data =? productId) with true by lia. simpl.
    rewrite app_nil_r. by apply without_absent. }
  destruct (storage_accepts env' storage_key _); simpl; exact Hback.
Qed.

Lemma add_then_remove_witness :
  cart_state
    (run (shop 5 false) (RemoveProduct 3)
       (run (shop 5 true) (AddProduct 3) (fresh [shoe 1 2; shoe 2 1])).2).2
  = [shoe 1 2; shoe 2 1].
Proof.
  apply (add_then_remove (shop 5 true) (shop 5 false) (fresh [shoe 1 2; shoe 2 1]) 3
           (shoe_data 3) (Stock.mk 3 5)); (reflexivity || (simpl; lia)).
Defined.




(** ** Whole sessions *)






(** ** Two calls from one render *)

Lemma addProduct_new_sets env cart w productId data stock :
  find_product cart productId = None ->
  api_products env productId = Some data ->
  api_stock env (ProductData.id data) = Some stock ->
  Stock.amount stock <> 0 ->
  cart_state (addProduct env cart productId w).2
  = cart ++ [ProductData.with_amount data 1].
Proof.
  intros Hfind Hdata Hstock Hnonzero. unfold_cart.
  rewrite Hfind, Hdata. simpl. rewrite Hstock. simpl.
  replace (Stock.amount stock =? 0) with false by lia. simpl.
  by destruct (storage_accepts env storage_key _).
Qed.

(** X12: two [addProduct] calls made from the same render, for two
    products that are not in the cart of that render, both start from that
    cart: when the second finishes after the first, the cart holds the
    second product and no longer the first. *)
Theorem same_render_second_add_wins env cart w p1 p2 data1 data2 stock1 stock2 :
  find_product cart p1 = None ->
  find_product cart p2 = None ->
  api_products env p1 = Some data1 ->
  api_products env p2 = Some data2 ->
  api_stock env (ProductData.id data1) = Some stock1 ->
  api_stock env (ProductData.id data2) = Some stock2 ->
  Stock.amount stock1 <> 0 ->
  Stock.amount stock2 <> 0 ->
  cart_state (addProduct env cart p1 w).2 = cart ++ [ProductData.with_amount data1 1]
  /\ cart_state (addProduct env cart p2 (addProduct env cart p1 w).2).2
     = cart ++ [ProductData.with_amount data2 1].
Proof.
  intros Hfind1 Hfind2 Hdata1 Hdata2 Hstock1 Hstock2 Hnonzero1 Hnonzero2.
  split; eapply addProduct_new_sets; eauto.
Qed.

Lemma same_render_second_add_wins_witness :
  cart_state (addProduct (shop 5 true) [shoe 1 2] 3 (fresh [shoe 1 2])).2
  = [shoe 1 2; shoe 3 1]
  /\ cart_state
       (addProduct (shop 5 true) [shoe 1 2] 4
          (addProduct (shop 5 true) [shoe 1 2] 3 (fresh [shoe 1 2])).2).2
     = [shoe 1 2; shoe 4 1].
Proof.
  apply (same_render_second_add_wins (shop 5 true) [shoe 1 2] (fresh [shoe 1 2]) 3 4
           (shoe_data 3) (shoe_data 4) (Stock.mk 3 5) (Stock.mk 4 5));
    (reflexivity || (simpl; lia)).
Defined.

(** ** Entries as objects *)

Lemma deref_reads h refs entries : Refs.deref h refs = Some entries <-> reads h refs entries.
Proof. apply mapM_Some. Qed.

Lemma reads_valid h refs entries l : reads h refs entries -> l ∈ refs -> (l < length h)%nat.
Proof.
  induction 1 as [|ref entry refs entries Href _ IH]; intros Hin; [by inversion Hin|].
  apply elem_of_cons in Hin as [-> | Hin]; [by eapply lookup_lt_Some | by apply IH].
Qed.

(** A heap that agrees with [h] on the references reads the same entries. *)
Lemma reads_frame h h' refs entries :
  reads h refs entries -> (forall l, l ∈ refs -> h' !! l = h !! l) -> reads h' refs entries.
Proof.
  induction 1 as [|ref entry refs entries Href _ IH]; intros Hsame; constructor.
  - rewrite Hsame; [done | left].
  - apply IH. intros l Hl. apply Hsame. by right.
Qed.

(** What the [map] of [handleUpdateAmountOnExistingProduct] does to the
    heap: the new list reads the incremented entries, and so does the list
    that was mapped over; references outside that list are not written, and
    the references of the new list are distinct. *)
Lemma map_increment_spec productFound foundId refs : forall h entries,
  reads h refs entries ->
  NoDup refs ->
  (exists found, h !! productFound = Some found /\ Product.id found = foundId) ->
  exists h' updatedCart,
    Refs.map_increment h productFound refs = Some (h', updatedCart)
    /\ reads h' updatedCart (increment foundId entries)
    /\ reads h' refs (increment foundId entries)
    /\ (length h <= length h')%nat
    /\ (forall l, l ∉ refs -> (l < length h)%nat -> h' !! l = h !! l)
    /\ NoDup updatedCart
    /\ (forall l, l ∈ updatedCart -> l ∈ refs \/ (length h <= l)%nat).
Proof.
  induction refs as [|ref refs IH]; intros h entries Hreads Hnodup (found & Hfound & Hid).
  - apply Forall2_nil_inv_l in Hreads as ->. exists h, []. simpl.
    split_and!; [done | constructor | constructor | lia | done | constructor |].
    intros l Hl. by inversion Hl.
  - apply Forall2_cons_inv_l in Hreads as (item & entries' & Href & Hreads' & ->).
    apply NoDup_cons in Hnodup as [Hfresh Hnodup].
    assert (Hvalid : forall l, l ∈ refs -> (l < length h)%nat)
      by (intros l; by eapply reads_valid).
    pose proof (lookup_lt_Some _ _ _ Href) as Href_lt.
    pose proof (lookup_lt_Some _ _ _ Hfound) as Hfound_lt.
    simpl Refs.map_increment. rewrite Href, Hfound, Hid.
    change (increment foundId (item :: entries'))
      with ((if Product.id item =? foundId
             then Product.with_amount item (Product.amount item + 1)
             else item) :: increment foundId entries').
    destruct (Z.eqb_spec (Product.id item) foundId) as [Hmatch|Hother].
    + set (incremented := Product.with_amount item (Product.amount item + 1)).
      set (h1 := <[ref := incremented]> h).
      assert (Hlen1 : length h1 = length h) by apply length_insert.
      assert (Hkeep : forall l, l <> ref -> (l < length h)%nat ->
                        (h1 ++ [incremented]) !! l = h !! l).
      { intros l Hne Hlt. rewrite lookup_app_l by lia.
        unfold h1. by rewrite list_lookup_insert_ne. }
      assert (Hwritten : (h1 ++ [incremented]) !! ref = Some incremented).
      { rewrite lookup_app_l by lia. unfold h1. by apply list_lookup_insert_eq. }
      assert (Hnew : (h1 ++ [incremented]) !! length h1 = Some incremented).
      { by rewrite lookup_app_r, Nat.sub_diag by lia. }
      destruct (IH (h1 ++ [incremented]) entries') as
        (h' & updatedCart & Hmap & Hout & Hold & Hgrow & Hframe & Hdistinct & Horigin).
      * eapply reads_frame; [exact Hreads'|]. intros l Hl. apply Hkeep; [|by apply Hvalid].
        intros ->. by apply Hfresh.
      * done.
      * destruct (decide (productFound = ref)) as [-> | Hne].
        -- exists incremented. split; [done|]. simpl. congruence.
        -- exists found. split; [|done]. rewrite Hkeep by done. done.
      * rewrite length_app, Hlen1 in Hgrow, Hframe, Horigin. simpl in Hgrow, Hframe, Horigin.
        assert (Hnew_fresh : length h1 ∉ refs).
        { intros Hin. apply Hvalid in Hin. lia. }
        rewrite Hmap. exists h', (length h1 :: updatedCart). split_and!.
        -- done.
        -- constructor; [|done]. rewrite Hframe by (done || lia). done.
        -- constructor; [|done]. rewrite Hframe by (done || lia). done.
        -- lia.
        -- intros l Hl Hlt. apply not_elem_of_cons in Hl as [Hne Hl].
           rewrite Hframe by (done || lia). by apply Hkeep.
        -- apply NoDup_cons. split; [|done]. intros Hin.
           apply Horigin in Hin as [Hin | Hin]; [by apply Hnew_fresh | lia].
        -- intros l Hl. apply elem_of_cons in Hl as [-> | Hl]; [right; lia|].
           apply Horigin in Hl as [Hl | Hl]; [left; by right | right; lia].
    + destruct (IH h entries') as
        (h' & updatedCart & Hmap & Hout & Hold & Hgrow & Hframe & Hdistinct & Horigin);
        [done | done | by eauto |].
      rewrite Hmap. exists h', (ref :: updatedCart). split_and!.
      * done.
      * constructor; [|done]. rewrite Hframe by done. done.
      * constructor; [|done]. rewrite Hframe by done. done.
      * done.
      * intros l Hl Hlt. apply not_elem_of_cons in Hl as [Hne Hl]. by apply Hframe.
      * apply NoDup_cons. split; [|done]. intros Hin.
        apply Horigin in Hin as [Hin | Hin]; [by apply Hfresh | lia].
      * intros l Hl. apply elem_of_cons in Hl as [-> | Hl]; [left; left|].
        apply Horigin in Hl as [Hl | Hl]; [left; by right | by right].
Qed.

(** [Refs.handleUpdateAmountOnExistingProduct] when the stock allows one
    more unit. *)
Lemma refs_increment_runs env cart productFound rw entries found stock :
  reads (Refs.heap rw) cart entries ->
  NoDup cart ->
  Refs.heap rw !! productFound = Some found ->
  api_stock env (Product.id found) = Some stock ->
  Product.amount found + 1 <= Stock.amount stock ->
  exists h' updatedCart,
    Refs.handleUpdateAmountOnExistingProduct env cart productFound rw
    = Some
        (let text :=
           JSON_stringify (json_of_cart (increment (Product.id found) entries)) in
         if storage_accepts env storage_key text
         then (inl tt,
               Refs.mkWorld h' updatedCart
                 (<[storage_key := text]> (Refs.localStorage rw)) (Refs.toasts rw))
         else (inr QuotaExceededError,
               Refs.mkWorld h' updatedCart (Refs.localStorage rw) (Refs.toasts rw)))
    /\ reads h' updatedCart (increment (Product.id found) entries)
    /\ reads h' cart (increment (Product.id found) entries)
    /\ (forall l, l ∉ cart -> (l < length (Refs.heap rw))%nat ->
          h' !! l = Refs.heap rw !! l)
    /\ NoDup updatedCart.
Proof.
  intros Hreads Hnodup Hfound Hstock Hle.
  destruct (map_increment_spec productFound (Product.id found) cart
              (Refs.heap rw) entries Hreads Hnodup)
    as (h' & updatedCart & Hmap & Hout & Hold & _ & Hframe & Hdistinct & _); [by eauto|].
  exists h', updatedCart. split_and!; try done.
  unfold Refs.handleUpdateAmountOnExistingProduct. rewrite Hfound, Hstock.
  replace (Product.amount found + 1 >? Stock.amount stock) with false by lia.
  rewrite Hmap. apply deref_reads in Hout. rewrite Hout. cbv zeta.
  by destruct (storage_accepts env storage_key _).
Qed.

(** X13: the operation on entries, used for the theorems above, is what
    the operation on objects does to the entries that the references stand
    for: from a world of distinct references that stands for a world of
    entries, [handleUpdateAmountOnExistingProduct] returns or throws the
    same on both, and the resulting world of references, again distinct,
    stands for the resulting world of entries. *)
Theorem references_refine_entries env rw w productFound found :
  represents rw w ->
  NoDup (Refs.cart_state rw) ->
  Refs.heap rw !! productFound = Some found ->
  exists rw',
    Refs.handleUpdateAmountOnExistingProduct env (Refs.cart_state rw) productFound rw
    = Some ((handleUpdateAmountOnExistingProduct env (cart_state w) found w).1, rw')
    /\ represents rw' (handleUpdateAmountOnExistingProduct env (cart_state w) found w).2
    /\ NoDup (Refs.cart_state rw').
Proof.
  intros (Hderef & Hstorage & Htoasts) Hnodup Hfound.
  unfold handleUpdateAmountOnExistingProduct, bind, api_get_stock.
  destruct (api_stock env (Product.id found)) as [stock|] eqn:Hstock.
  - simpl. destruct (Z.gtb_spec (Product.amount found + 1) (Stock.amount stock)) as [Hgt|Hle].
    + eexists. unfold Refs.handleUpdateAmountOnExistingProduct. rewrite Hfound, Hstock.
      replace (Product.amount found + 1 >? Stock.amount stock) with true by lia.
      split; [reflexivity|]. split; [|done]. unfold represents. simpl.
      by rewrite Htoasts.
    + apply deref_reads in Hderef.
      destruct (refs_increment_runs env _ _ _ _ _ _ Hderef Hnodup Hfound Hstock Hle)
        as (h' & updatedCart & Hrun & Hout & _ & _ & Hdistinct).
      rewrite Hrun. apply deref_reads in Hout.
      unfold persistCartOnLocalStorage, localStorage_setItem, setCart. simpl.
      fold (increment (Product.id found) (cart_state w)).
      destruct (storage_accepts env storage_key _); eexists;
        (split; [reflexivity|]); (split; [|done]); unfold represents; simpl;
        by rewrite Hstorage.
  - eexists. unfold Refs.handleUpdateAmountOnExistingProduct. rewrite Hfound, Hstock.
    split; [reflexivity|]. by split.
Qed.

Lemma two_shoes_represented : represents two_shoes (fresh [shoe 1 2; shoe 2 1]).
Proof. by split_and!. Qed.

Lemma two_shoes_distinct : NoDup (Refs.cart_state two_shoes).
Proof. simpl. compute_done. Qed.

Lemma references_refine_entries_witness :
  exists rw',
    Refs.handleUpdateAmountOnExistingProduct (shop 5 true) (Refs.cart_state two_shoes)
      0%nat two_shoes
    = Some ((handleUpdateAmountOnExistingProduct (shop 5 true) [shoe 1 2; shoe 2 1]
               (shoe 1 2) (fresh [shoe 1 2; shoe 2 1])).1, rw')
    /\ represents rw'
         (handleUpdateAmountOnExistingProduct (shop 5 true) [shoe 1 2; shoe 2 1]
            (shoe 1 2) (fresh [shoe 1 2; shoe 2 1])).2
    /\ NoDup (Refs.cart_state rw').
Proof.
  exact (references_refine_entries (shop 5 true) two_shoes (fresh [shoe 1 2; shoe 2 1])
           0%nat (shoe 1 2) two_shoes_represented two_shoes_distinct eq_refl).
Defined.

(** X14: when [handleUpdateAmountOnExistingProduct] increments, it also
    writes the new quantities into the entries of the list it was called
    with: after the call that list, the cart of the render that made the
    call, reads the same entries as the new cart. Objects that the list does
    not refer to are not written. *)
Theorem increment_written_in_place env rw entries productFound found stock :
  reads (Refs.heap rw) (Refs.cart_state rw) entries ->
  NoDup (Refs.cart_state rw) ->
  Refs.heap rw !! productFound = Some found ->
  api_stock env (Product.id found) = Some stock ->
  Product.amount found + 1 <= Stock.amount stock ->
  exists r rw',
    Refs.handleUpdateAmountOnExistingProduct env (Refs.cart_state rw) productFound rw
    = Some (r, rw')
    /\ Refs.deref (Refs.heap rw') (Refs.cart_state rw')
       = Some (increment (Product.id found) entries)
    /\ Refs.deref (Refs.heap rw') (Refs.cart_state rw)
       = Some (increment (Product.id found) entries)
    /\ (forall l, l ∉ Refs.cart_state rw -> (l < length (Refs.heap rw))%nat ->
          Refs.heap rw' !! l = Refs.heap rw !! l).
Proof.
  intros Hreads Hnodup Hfound Hstock Hle.
  destruct (refs_increment_runs env _ _ _ _ _ _ Hreads Hnodup Hfound Hstock Hle)
    as (h' & updatedCart & Hrun & Hout & Hold & Hframe & _).
  apply deref_reads in Hout, Hold. rewrite Hrun. cbv zeta.
  destruct (storage_accepts env storage_key _); by eexists _, _.
Qed.

Lemma increment_written_in_place_witness :
  exists r rw',
    Refs.handleUpdateAmountOnExistingProduct (shop 5 true) [0%nat; 1%nat] 0%nat two_shoes
    = Some (r, rw')
    /\ Refs.deref (Refs.heap rw') (Refs.cart_state rw') = Some [shoe 1 3; shoe 2 1]
    /\ Refs.deref (Refs.heap rw') [0%nat; 1%nat] = Some [shoe 1 3; shoe 2 1]
    /\ (forall l, l ∉ [0%nat; 1%nat] -> (l < 2)%nat ->
          Refs.heap rw' !! l = [shoe 1 2; shoe 2 1] !! l).
Proof.
  apply (increment_written_in_place (shop 5 true) two_shoes [shoe 1 2; shoe 2 1] 0%nat
           (shoe 1 2) (Stock.mk 1 5));
    [by repeat constructor | apply two_shoes_distinct | reflexivity | reflexivity
    | simpl; lia].
Defined.



